(** * Webhook transaction processor

    A shallow embedding of the ingestion route, the lookup route and the
    settlement worker of the webhook transaction processor
    ([app/api/routes.py], [app/services/processor.py], [app/db/models.py],
    [app/schemas/transaction.py]), and the properties of the pipeline
    accept -> store -> delayed settlement.

    Handlers are computations in a state-and-exception monad over a [World]
    that holds the [transactions] table, the clock, the supply of primary
    keys, the queue of scheduled background tasks and the [Platform] the
    application is deployed on. *)

From Stdlib Require Import ZArith Lia.
From Stdlib Require Import Floats.SpecFloat.
From stdpp Require Import base list strings.

Local Open Scope Z_scope.

(** ** Python values *)

(** A Python [float] is an IEEE binary64 number. *)
Definition float : Type := spec_float.

Definition float_of_Z (z : Z) : float := binary_normalize 53 1024 z 0 false.

(** A float given as [m * 2^e]. *)
Definition float_of_dyadic (m e : Z) : float := binary_normalize 53 1024 m e false.

(** An instant: a [datetime] with its time zone ([timestamptz]), as seconds
    since the epoch. *)
Definition datetime : Type := Z.

(** A [datetime] without time zone: the fields of a wall-clock reading,
    counted as seconds since 1970-01-01 00:00:00 on that wall clock. *)
Definition naive_datetime : Type := Z.

(** A value of a [Numeric(12, 2)] column: a decimal with two fractional
    digits, given by its count of hundredths, or the column's NaN. *)
Inductive Numeric : Type :=
| Fixed2 (hundredths : Z)
| NotANumber.

(** What the sources leave to the storage engine, its configuration and
    the schema library: the session factory [app/db/session.py] (with the
    database it points to) is not among the sources.
    - [numeric_12_2]: the value a [Numeric(12, 2)] column holds after a
      Python [float] is bound to it (models.py:16);
    - [float_of_numeric]: the [float] a field declared [amount: float]
      takes from the column's decimal (schemas/transaction.py:9, 20-21);
    - [timestamptz_of_naive]: the instant a [DateTime(timezone=True)]
      column holds after a [datetime] without time zone is bound to it,
      that is, the reading taken in the time zone of the database session
      (models.py:22). *)
Record Platform : Type := mkPlatform {
  numeric_12_2 : float -> Numeric;
  float_of_numeric : Numeric -> float;
  timestamptz_of_naive : naive_datetime -> datetime
}.

(** [uuid.uuid4()] values. *)
Definition UUID : Type := N.

(** Storage errors raised by the session that are not [IntegrityError]. *)
Inductive storage_failure : Type :=
| OperationalError
| DataError
| InternalError.

(** The exceptions the handlers can meet. *)
Inductive exn : Type :=
| IntegrityError
| StorageFailure (f : storage_failure)
| NameError (name : string)
| HTTPException (status_code : Z) (detail : string).

Inductive result (A : Type) : Type :=
| Return (a : A)
| Raise (e : exn).

Arguments Return {A} a.
Arguments Raise {A} e.

(** ** app/db/models.py *)

Module Transaction.

(** A row of table [transactions] (models.py:7-22).  [status] is a plain
    [String] column; [processed_at] is nullable. *)
Record t : Type := mk {
  id : UUID;
  transaction_id : string;
  source_account : string;
  destination_account : string;
  amount : Numeric;
  currency : string;
  status : string;
  created_at : datetime;
  processed_at : option datetime
}.

(** [Transaction(transaction_id=..., ..., status=...)]: the object before
    it is flushed.  What the flush supplies is still open: the column
    value of the [float] given for [amount], and the two columns with
    defaults, [id] ([default=uuid.uuid4]) and [created_at]
    ([server_default=func.now()]); [processed_at] is not given and stays
    NULL. *)
Definition init (transaction_id source_account destination_account : string)
    (amount : float) (currency status : string)
    : Platform -> UUID -> datetime -> t :=
  fun engine pk now =>
    mk pk transaction_id source_account destination_account
       (numeric_12_2 engine amount) currency status now None.

(** Attribute assignments [txn.status = v] and [txn.processed_at = v]. *)
Definition set_status (txn : t) (v : string) : t :=
  mk (id txn) (transaction_id txn) (source_account txn)
     (destination_account txn) (amount txn) (currency txn)
     v (created_at txn) (processed_at txn).

Definition set_processed_at (txn : t) (v : option datetime) : t :=
  mk (id txn) (transaction_id txn) (source_account txn)
     (destination_account txn) (amount txn) (currency txn)
     (status txn) (created_at txn) v.

End Transaction.

(** ** app/schemas/transaction.py *)

Module TransactionCreate.

(** [TransactionCreate(TransactionBase)]: the webhook payload. *)
Record t : Type := mk {
  transaction_id : string;
  source_account : string;
  destination_account : string;
  amount : float;
  currency : string
}.

End TransactionCreate.

Module TransactionResponse.

(** [TransactionResponse(TransactionBase)] with [orm_mode = True]. *)
Record t : Type := mk {
  transaction_id : string;
  source_account : string;
  destination_account : string;
  amount : float;
  currency : string;
  status : string;
  created_at : datetime;
  processed_at : option datetime
}.

Definition from_orm (schema : Platform) (txn : Transaction.t) : t :=
  mk (Transaction.transaction_id txn) (Transaction.source_account txn)
     (Transaction.destination_account txn)
     (float_of_numeric schema (Transaction.amount txn))
     (Transaction.currency txn) (Transaction.status txn)
     (Transaction.created_at txn) (Transaction.processed_at txn).

End TransactionResponse.

(** ** The world the handlers run in *)

Record World : Type := mkWorld {
  table : list Transaction.t;       (* rows of [transactions], insertion order *)
  next_uuid : UUID;                 (* the next value of [uuid.uuid4()] *)
  clock : datetime;                 (* the current instant *)
  background_tasks : list string;   (* scheduled [process_transaction] calls *)
  platform : Platform               (* engine, its configuration, schema library *)
}.

Definition with_table (w : World) (rows : list Transaction.t) : World :=
  mkWorld rows (next_uuid w) (clock w) (background_tasks w) (platform w).

Definition with_clock (w : World) (now : datetime) : World :=
  mkWorld (table w) (next_uuid w) now (background_tasks w) (platform w).

Definition with_background_tasks (w : World) (ts : list string) : World :=
  mkWorld (table w) (next_uuid w) (clock w) ts (platform w).

(** A store that has seen no webhook, deployed on [p] and started at the
    instant [t0]. *)
Definition init (p : Platform) (t0 : datetime) : World := mkWorld [] 0%N t0 [] p.

(** ** State and exceptions *)

Definition M (A : Type) : Type := World -> result A * World.

Definition ret {A} (a : A) : M A := fun w => (Return a, w).

Definition raise {A} (e : exn) : M A := fun w => (Raise e, w).

Definition bind {A B} (c : M A) (k : A -> M B) : M B :=
  fun w =>
    match c w with
    | (Return a, w') => k a w'
    | (Raise e, w') => (Raise e, w')
    end.

Notation "'let!' x ':=' c 'in' k" := (bind c (fun x => k))
  (at level 10, x name, c at level 100, k at level 200).
Notation "'do!' c 'in' k" := (bind c (fun _ => k))
  (at level 10, c at level 100, k at level 200).

(** [try: body / except IntegrityError: handler]: only [IntegrityError] is
    caught, every other exception keeps propagating. *)
Definition try_except_IntegrityError {A} (body handler : M A) : M A :=
  fun w =>
    match body w with
    | (Raise IntegrityError, w') => handler w'
    | other => other
    end.

(** [try: body / finally: cleanup]. *)
Definition try_finally {A} (body : M A) (cleanup : M unit) : M A :=
  fun w =>
    match body w with
    | (r, w') =>
        match cleanup w' with
        | (Return _, w'') => (r, w'')
        | (Raise e, w'') => (Raise e, w'')
        end
    end.

(** ** The clock *)

(** [time.sleep(secs)]. *)
Definition time_sleep (secs : Z) : M unit :=
  fun w => (Return tt, with_clock w (clock w + secs)).

(** [datetime.utcnow()]: the current instant as a UTC wall-clock reading
    that carries no time zone. *)
Definition utcnow : M naive_datetime := fun w => (Return (clock w), w).

(** ** The session *)

Module Session.

(** [db.query(Transaction).filter(Transaction.transaction_id == tid).first()] *)
Definition query_first (tid : string) : M (option Transaction.t) :=
  fun w =>
    (Return (head (filter (λ r, Transaction.transaction_id r = tid) (table w))), w).

(** Modelled from the spec: the session factory [app/db/session.py] is
    not among the sources, so the engine behind [db.add(txn); db.commit()]
    is the Ledger Store's [insert_if_absent]: the row gets its column
    values from the platform ([amount] as [Numeric(12, 2)]) and its
    defaults ([id] from [uuid4], [created_at] from the server's [now()],
    an instant), the primary key and the [unique=True] column
    [transaction_id] are enforced with [IntegrityError], any other
    failure of the engine ([fault]) is raised as it is, and a failed
    commit stores nothing. *)
Definition add_commit (fault : option storage_failure)
    (txn : Platform -> UUID -> datetime -> Transaction.t) : M unit :=
  fun w =>
    match fault with
    | Some f => (Raise (StorageFailure f), w)
    | None =>
        let row := txn (platform w) (next_uuid w) (clock w) in
        if decide (Transaction.id row ∈ Transaction.id <$> table w) then
          (Raise IntegrityError, w)
        else if decide (Transaction.transaction_id row
                          ∈ Transaction.transaction_id <$> table w) then
          (Raise IntegrityError, w)
        else
          (Return tt,
           mkWorld (table w ++ [row]) (N.succ (next_uuid w)) (clock w)
                   (background_tasks w) (platform w))
    end.

(** [db.rollback()]: nothing of the failed insert was stored. *)
Definition rollback : M unit := ret tt.

(** [db.close()]. *)
Definition close : M unit := ret tt.

(** Modelled from the spec: [db.commit()] after the attribute assignments
    on a loaded row is the Ledger Store's [mark_processed]: the assigned
    columns [status] and [processed_at] of [txn] are written to the row
    with [txn]'s primary key, the assigned [datetime] without time zone
    being read into the [DateTime(timezone=True)] column as the platform
    does; a failure of the engine writes nothing. *)
Definition commit (fault : option storage_failure) (txn : Transaction.t) : M unit :=
  fun w =>
    match fault with
    | Some f => (Raise (StorageFailure f), w)
    | None =>
        (Return tt,
         with_table w
           ((λ r, if decide (Transaction.id r = Transaction.id txn)
                  then Transaction.set_processed_at
                         (Transaction.set_status r (Transaction.status txn))
                         (timestamptz_of_naive (platform w)
                            <$> Transaction.processed_at txn)
                  else r) <$> table w))
    end.

End Session.

(** ** app/services/processor.py *)

(** [process_transaction(transaction_id)] (processor.py:6-20).  [fault] is
    what the engine does to the commit of line 18. *)
Definition process_transaction (fault : option storage_failure)
    (transaction_id : string) : M unit :=
  do! time_sleep 30 in
  try_finally
    (let! txn := Session.query_first transaction_id in
     match txn with
     | Some txn =>
         let txn := Transaction.set_status txn "PROCESSED" in
         let! now := utcnow in
         let txn := Transaction.set_processed_at txn (Some now) in
         Session.commit fault txn
     | None => ret tt
     end)
    Session.close.

(** ** app/api/routes.py *)

(** The names bound in the module: its imports (routes.py:1-9) and its own
    definitions.  No Python builtin is called [HTTPException]. *)
Definition routes_globals : list string :=
  [ "APIRouter"; "Depends"; "BackgroundTasks";
    "Session";
    "IntegrityError";
    "SessionLocal";
    "Transaction";
    "TransactionCreate"; "TransactionResponse";
    "process_transaction";
    "List";
    "router"; "get_db"; "receive_webhook"; "get_transaction" ].

(** Evaluating a global name. *)
Definition load_global (name : string) : M unit :=
  if decide (name ∈ routes_globals) then ret tt else raise (NameError name).

(** [background_tasks.add_task(process_transaction, tid)]. *)
Definition add_task (tid : string) : M unit :=
  fun w => (Return tt, with_background_tasks w (background_tasks w ++ [tid])).

(** [receive_webhook] (routes.py:20-48), registered with [status_code=202].
    [fault] is what the engine does to the commit of line 37.  The handler
    returns [{"message": "accepted"}]; the value here is that message. *)
Definition receive_webhook (fault : option storage_failure)
    (payload : TransactionCreate.t) : M string :=
  let txn :=
    Transaction.init
      (TransactionCreate.transaction_id payload)
      (TransactionCreate.source_account payload)
      (TransactionCreate.destination_account payload)
      (TransactionCreate.amount payload)
      (TransactionCreate.currency payload)
      "PROCESSING" in
  try_finally
    (do! try_except_IntegrityError
           (do! Session.add_commit fault txn in
            add_task (TransactionCreate.transaction_id payload))
           Session.rollback in
     ret "accepted")
    Session.close.

(** [get_transaction] (routes.py:50-62). *)
Definition get_transaction (transaction_id : string) : M (list Transaction.t) :=
  try_finally
    (let! txn := Session.query_first transaction_id in
     match txn with
     | None =>
         do! load_global "HTTPException" in
         raise (HTTPException 404 "Transaction not found")
     | Some txn => ret [txn]
     end)
    Session.close.

(** The schema library the responses are built with. *)
Definition get_platform : M Platform := fun w => (Return (platform w), w).

(** The body of the lookup response: [response_model=List[TransactionResponse]]. *)
Definition lookup (transaction_id : string) : M (list TransactionResponse.t) :=
  let! rows := get_transaction transaction_id in
  let! schema := get_platform in
  ret (TransactionResponse.from_orm schema <$> rows).

(** The status line of a response: the route's own code when the handler
    returns, the code of an [HTTPException], and 500 Internal Server Error
    for every other exception that leaves the handler. *)
Definition http_status {A} (status_code : Z) (r : result A) : Z :=
  match r with
  | Return _ => status_code
  | Raise (HTTPException code _) => code
  | Raise _ => 500
  end.

(** ** The running system *)

Inductive event : Type :=
| PostWebhook (fault : option storage_failure) (payload : TransactionCreate.t)
| GetTransaction (transaction_id : string)
| RunBackground (i : nat) (fault : option storage_failure)
| Elapse (d : N).

(** One event.  [RunBackground i] takes the [i]-th scheduled task off the
    queue and runs it. *)
Definition exec (e : event) (w : World) : World :=
  match e with
  | PostWebhook fault payload => snd (receive_webhook fault payload w)
  | GetTransaction tid => snd (get_transaction tid w)
  | RunBackground i fault =>
      match background_tasks w !! i with
      | Some tid =>
          snd (process_transaction fault tid
                 (with_background_tasks w (delete i (background_tasks w))))
      | None => w
      end
  | Elapse d => with_clock w (clock w + Z.of_N d)
  end.

Fixpoint run (evs : list event) (w : World) : World :=
  match evs with
  | [] => w
  | e :: evs' => run evs' (exec e w)
  end.

Definition reachable (w : World) : Prop :=
  ∃ p t0 evs, w = run evs (init p t0).

(** ** Observations *)

(** The rows stored under a [transaction_id]. *)
Definition rows_of (tid : string) (w : World) : list Transaction.t :=
  filter (λ r, Transaction.transaction_id r = tid) (table w).

(** What the settlement worker may change of a row: nothing but [status]
    and [processed_at], and [status] never away from ["PROCESSED"]. *)
Definition evolves (r r' : Transaction.t) : Prop :=
  Transaction.id r' = Transaction.id r
  ∧ Transaction.transaction_id r' = Transaction.transaction_id r
  ∧ Transaction.source_account r' = Transaction.source_account r
  ∧ Transaction.destination_account r' = Transaction.destination_account r
  ∧ Transaction.amount r' = Transaction.amount r
  ∧ Transaction.currency r' = Transaction.currency r
  ∧ Transaction.created_at r' = Transaction.created_at r
  ∧ (Transaction.status r = "PROCESSED" → Transaction.status r' = "PROCESSED").

(** The invariant of the store. *)
Record Inv (w : World) : Prop := mkInv {
  inv_fresh : Forall (λ r, (Transaction.id r < next_uuid w)%N) (table w);
  inv_pk : NoDup (Transaction.id <$> table w);
  inv_unique : NoDup (Transaction.transaction_id <$> table w);
  inv_status :
    Forall (λ r, Transaction.status r = "PROCESSING"
                 ∨ Transaction.status r = "PROCESSED") (table w);
  inv_processed :
    Forall (λ r, match Transaction.processed_at r with
                 | Some t => Transaction.status r = "PROCESSED"
                 | None => Transaction.status r = "PROCESSING"
                 end) (table w)
}.

(** The update the settlement worker commits to a row, [now] being the
    instant the column takes. *)
Definition settle_row (now : datetime) (r : Transaction.t) : Transaction.t :=
  Transaction.set_processed_at (Transaction.set_status r "PROCESSED") (Some now).

(** The same update, on the row with primary key [pk] only. *)
Definition settle_where (pk : UUID) (now : datetime) (r : Transaction.t) : Transaction.t :=
  if decide (Transaction.id r = pk) then settle_row now r else r.

(** The row a fresh payload is stored as. *)
Definition new_row (payload : TransactionCreate.t) (w : World) : Transaction.t :=
  Transaction.mk (next_uuid w)
    (TransactionCreate.transaction_id payload)
    (TransactionCreate.source_account payload)
    (TransactionCreate.destination_account payload)
    (numeric_12_2 (platform w) (TransactionCreate.amount payload))
    (TransactionCreate.currency payload)
    "PROCESSING" (clock w) None.

(** ** The task queue *)

(** Every scheduled task is for a stored row that is still PROCESSING, and
    no [transaction_id] is scheduled twice. *)
Record Pending (w : World) : Prop := mkPending {
  pending_once : NoDup (background_tasks w);
  pending_rows :
    Forall (λ tid, ∃ r, r ∈ table w
                        ∧ Transaction.transaction_id r = tid
                        ∧ Transaction.status r = "PROCESSING")
           (background_tasks w)
}.

(** A row the queue holds no task for. *)
Definition unscheduled (i : nat) (r : Transaction.t) (w : World) : Prop :=
  table w !! i = Some r ∧ Transaction.transaction_id r ∉ background_tasks w.

(** ** Sample data *)

(** A sample of the column's rounding: the exact value of the float, to
    the nearest hundredth, halves away from zero (0.125 gives 0.13). *)
Definition half_away_hundredths (x : float) : Numeric :=
  match x with
  | S754_zero _ => Fixed2 0
  | S754_finite s m e =>
      let twice := if 0 <=? e then 200 * Z.pos m * 2 ^ e
                   else 200 * Z.pos m / 2 ^ (- e) in
      let q := (twice + 1) / 2 in
      Fixed2 (if s then - q else q)
  | _ => NotANumber
  end.

(** A sample of the schema's float: the decimal's value, correctly rounded. *)
Definition nearest_float (d : Numeric) : float :=
  match d with
  | Fixed2 h => SFdiv 53 1024 (float_of_Z h) (float_of_Z 100)
  | NotANumber => S754_nan
  end.

(** A deployment whose database session has TimeZone UTC. *)
Definition utc_platform : Platform :=
  mkPlatform half_away_hundredths nearest_float (fun naive => naive).

(** A deployment whose database session has TimeZone Asia/Kolkata, five and
    a half hours east of UTC. *)
Definition kolkata_platform : Platform :=
  mkPlatform half_away_hundredths nearest_float (fun naive => naive - 19800).

Definition payload_tx1 : TransactionCreate.t :=
  TransactionCreate.mk "tx-1" "A" "B" (float_of_Z 10) "USD".

Definition payload_tx1' : TransactionCreate.t :=
  TransactionCreate.mk "tx-1" "C" "D" (float_of_Z 99) "EUR".

Definition payload_tx2 : TransactionCreate.t :=
  TransactionCreate.mk "tx-2" "C" "D" (float_of_dyadic 1 (-3)) "EUR".

(** "tx-1" accepted at time 1000 and settled by its task. *)
Definition settled_tx1 : World :=
  run [PostWebhook None payload_tx1; RunBackground 0 None] (init utc_platform 1000).

(** "tx-1" settled and "tx-2" accepted after it. *)
Definition two_rows : World :=
  run [PostWebhook None payload_tx1; RunBackground 0 None;
       PostWebhook None payload_tx2] (init utc_platform 1000).

(** "tx-1" accepted and settled thirty seconds later, on the deployment
    with TimeZone Asia/Kolkata. *)
Definition settled_tx1_kolkata : World :=
  run [PostWebhook None payload_tx1; RunBackground 0 None]
      (init kolkata_platform 1700000000).

(** * Properties *)

(** ** The scenario of the specification, run *)

Example scenario_accept :
  receive_webhook None payload_tx1 (init utc_platform 1000)
  = (Return "accepted",
     mkWorld [Transaction.mk 0%N "tx-1" "A" "B" (Fixed2 1000) "USD"
                "PROCESSING" 1000 None]
             1%N 1000 ["tx-1"] utc_platform).
Proof. reflexivity. Qed.

Example scenario_settled :
  fst (lookup "tx-1"
         (run [PostWebhook None payload_tx1; PostWebhook None payload_tx1';
               RunBackground 0 None] (init utc_platform 1000)))
  = Return [TransactionResponse.mk "tx-1" "A" "B" (float_of_Z 10) "USD"
              "PROCESSED" 1000 (Some 1030)].
Proof. reflexivity. Qed.

(** An amount of 0.125 is stored as 0.13 and looked up as the float
    nearest to 0.13, on the sample platform. *)
Example scenario_amount_rounded :
  rows_of "tx-2" two_rows
  = [Transaction.mk 1%N "tx-2" "C" "D" (Fixed2 13) "EUR" "PROCESSING" 1030 None]
  ∧ fst (lookup "tx-2" two_rows)
    = Return [TransactionResponse.mk "tx-2" "C" "D"
                (float_of_dyadic 4683743612465316 (-55)) "EUR" "PROCESSING" 1030 None]
  ∧ float_of_dyadic 4683743612465316 (-55) ≠ TransactionCreate.amount payload_tx2.
Proof.
  split; [reflexivity|]. split; [reflexivity|]. discriminate.
Qed.

(** ** The handlers, case by case *)

Lemma receive_webhook_fault f payload w :
  receive_webhook (Some f) payload w = (Raise (StorageFailure f), w).
Proof. reflexivity. Qed.

Lemma receive_webhook_duplicate payload w :
  TransactionCreate.transaction_id payload ∈ Transaction.transaction_id <$> table w →
  receive_webhook None payload w = (Return "accepted", w).
Proof.
  intros Hin.
  unfold receive_webhook, try_finally, bind, try_except_IntegrityError,
    Session.add_commit, Transaction.init; simpl.
  destruct (decide (next_uuid w ∈ Transaction.id <$> table w)); [reflexivity|].
  destruct (decide (TransactionCreate.transaction_id payload ∈ Transaction.transaction_id <$> table w));
    [reflexivity|contradiction].
Qed.

Lemma receive_webhook_pk_clash payload w :
  next_uuid w ∈ Transaction.id <$> table w →
  receive_webhook None payload w = (Return "accepted", w).
Proof.
  intros Hin.
  unfold receive_webhook, try_finally, bind, try_except_IntegrityError,
    Session.add_commit, Transaction.init; simpl.
  destruct (decide (next_uuid w ∈ Transaction.id <$> table w)); [reflexivity|contradiction].
Qed.

Lemma receive_webhook_insert payload w :
  next_uuid w ∉ Transaction.id <$> table w →
  TransactionCreate.transaction_id payload ∉ Transaction.transaction_id <$> table w →
  receive_webhook None payload w
  = (Return "accepted",
     mkWorld (table w ++ [new_row payload w]) (N.succ (next_uuid w)) (clock w)
             (background_tasks w ++ [TransactionCreate.transaction_id payload])
             (platform w)).
Proof.
  intros Hpk Htid.
  unfold receive_webhook, try_finally, bind, try_except_IntegrityError,
    Session.add_commit, Transaction.init; simpl.
  destruct (decide (next_uuid w ∈ Transaction.id <$> table w)); [contradiction|].
  destruct (decide (TransactionCreate.transaction_id payload ∈ Transaction.transaction_id <$> table w));
    [contradiction|reflexivity].
Qed.

Lemma process_transaction_missing fault tid w :
  rows_of tid w = [] →
  process_transaction fault tid w = (Return tt, with_clock w (clock w + 30)).
Proof.
  intros Hnone.
  unfold process_transaction, try_finally, bind, time_sleep, Session.query_first; simpl.
  unfold rows_of in Hnone. rewrite Hnone. reflexivity.
Qed.

Lemma process_transaction_found tid w txn rest :
  rows_of tid w = txn :: rest →
  process_transaction None tid w
  = (Return tt,
     mkWorld (settle_where (Transaction.id txn) (timestamptz_of_naive (platform w) (clock w + 30)) <$> table w)
             (next_uuid w) (clock w + 30) (background_tasks w) (platform w)).
Proof.
  intros Hsome.
  unfold process_transaction, try_finally, bind, time_sleep, Session.query_first; simpl.
  unfold rows_of in Hsome. rewrite Hsome. reflexivity.
Qed.

Lemma process_transaction_found_fault f tid w txn rest :
  rows_of tid w = txn :: rest →
  process_transaction (Some f) tid w
  = (Raise (StorageFailure f), with_clock w (clock w + 30)).
Proof.
  intros Hsome.
  unfold process_transaction, try_finally, bind, time_sleep, Session.query_first; simpl.
  unfold rows_of in Hsome. rewrite Hsome. reflexivity.
Qed.

Lemma get_transaction_found tid w txn rest :
  rows_of tid w = txn :: rest →
  get_transaction tid w = (Return [txn], w).
Proof.
  intros Hsome.
  unfold get_transaction, try_finally, bind, Session.query_first; simpl.
  unfold rows_of in Hsome. rewrite Hsome. reflexivity.
Qed.

Lemma get_transaction_missing tid w :
  rows_of tid w = [] →
  get_transaction tid w = (Raise (NameError "HTTPException"), w).
Proof.
  intros Hnone.
  unfold get_transaction, try_finally, bind, Session.query_first; simpl.
  unfold rows_of in Hnone. rewrite Hnone. reflexivity.
Qed.

Lemma get_transaction_world tid w : snd (get_transaction tid w) = w.
Proof.
  destruct (rows_of tid w) as [|txn rest] eqn:E.
  - rewrite (get_transaction_missing _ _ E). reflexivity.
  - rewrite (get_transaction_found _ _ _ _ E). reflexivity.
Qed.

(** ** The invariant of the store *)

Lemma Inv_init p t0 : Inv (init p t0).
Proof.
  split; simpl; try apply Forall_nil_2; apply NoDup_nil_2.
Qed.

(** Time passing and the task queue do not matter to the invariant. *)
Lemma Inv_later w now tasks :
  Inv w →
  Inv (mkWorld (table w) (next_uuid w) now tasks (platform w)).
Proof.
  intros [Hf Hpk Hu Hs Hp]. split; simpl; assumption.
Qed.

Lemma settle_map_pk pk now (rows : list Transaction.t) :
  Transaction.id <$>
    (settle_where pk now <$> rows)
  = Transaction.id <$> rows.
Proof.
  rewrite <- list_fmap_compose. apply list_fmap_ext.
  intros i r _. simpl. unfold settle_where.
  destruct (decide (Transaction.id r = pk)); reflexivity.
Qed.

Lemma settle_map_tid pk now (rows : list Transaction.t) :
  Transaction.transaction_id <$>
    (settle_where pk now <$> rows)
  = Transaction.transaction_id <$> rows.
Proof.
  rewrite <- list_fmap_compose. apply list_fmap_ext.
  intros i r _. simpl. unfold settle_where.
  destruct (decide (Transaction.id r = pk)); reflexivity.
Qed.

Lemma Inv_settle w pk t now tasks :
  Inv w →
  Inv (mkWorld (settle_where pk t <$> table w) (next_uuid w) now tasks (platform w)).
Proof.
  intros [Hf Hpk Hu Hs Hp]. split; simpl.
  - apply Forall_fmap. eapply Forall_impl; [exact Hf|]. simpl. intros r Hr.
    unfold settle_where. destruct (decide (Transaction.id r = pk)); exact Hr.
  - rewrite settle_map_pk. exact Hpk.
  - rewrite settle_map_tid. exact Hu.
  - apply Forall_fmap. eapply Forall_impl; [exact Hs|]. simpl. intros r Hr.
    unfold settle_where.
    destruct (decide (Transaction.id r = pk)); [right; reflexivity | exact Hr].
  - apply Forall_fmap. eapply Forall_impl; [exact Hp|]. simpl. intros r Hr.
    unfold settle_where.
    destruct (decide (Transaction.id r = pk)); [reflexivity | exact Hr].
Qed.

Lemma Inv_insert payload w :
  Inv w →
  TransactionCreate.transaction_id payload ∉ Transaction.transaction_id <$> table w →
  Inv (mkWorld (table w ++ [new_row payload w]) (N.succ (next_uuid w)) (clock w)
               (background_tasks w ++ [TransactionCreate.transaction_id payload])
             (platform w)).
Proof.
  intros [Hf Hpk Hu Hs Hp] Hnew. split; simpl.
  - apply Forall_app. split.
    + eapply Forall_impl; [exact Hf|]. simpl. intros r Hr. lia.
    + apply Forall_singleton. simpl. lia.
  - rewrite fmap_app. simpl. apply NoDup_app. split; [exact Hpk|]. split.
    + intros x Hx Hx'. apply list_elem_of_singleton in Hx'. subst x.
      apply list_elem_of_fmap in Hx as [r [Hr Hin]].
      pose proof (proj1 (Forall_forall _ _) Hf r Hin) as Hlt. simpl in Hlt. lia.
    + apply NoDup_singleton.
  - rewrite fmap_app. simpl. apply NoDup_app. split; [exact Hu|]. split.
    + intros x Hx Hx'. apply list_elem_of_singleton in Hx'. subst x. contradiction.
    + apply NoDup_singleton.
  - apply Forall_app. split; [exact Hs|]. apply Forall_singleton. left. reflexivity.
  - apply Forall_app. split; [exact Hp|]. apply Forall_singleton. reflexivity.
Qed.

(** In a store that satisfies the invariant the next primary key is unused. *)
Lemma Inv_next_uuid_fresh w : Inv w → next_uuid w ∉ Transaction.id <$> table w.
Proof.
  intros HI Hin. apply list_elem_of_fmap in Hin as [r [Hr Hin]].
  pose proof (proj1 (Forall_forall _ _) (inv_fresh w HI) r Hin) as Hlt.
  simpl in Hlt. lia.
Qed.

Lemma world_eta w :
  mkWorld (table w) (next_uuid w) (clock w) (background_tasks w) (platform w) = w.
Proof. destruct w; reflexivity. Qed.

Lemma Inv_receive_webhook fault payload w :
  Inv w → Inv (snd (receive_webhook fault payload w)).
Proof.
  intros HI. destruct fault as [f|]; [exact HI|].
  destruct (decide (TransactionCreate.transaction_id payload
                      ∈ Transaction.transaction_id <$> table w)) as [Hd|Hn].
  - rewrite (receive_webhook_duplicate _ _ Hd). exact HI.
  - rewrite (receive_webhook_insert _ _ (Inv_next_uuid_fresh _ HI) Hn).
    simpl. apply Inv_insert; assumption.
Qed.

Lemma Inv_process_transaction fault tid w :
  Inv w → Inv (snd (process_transaction fault tid w)).
Proof.
  intros HI. destruct (rows_of tid w) as [|txn rest] eqn:E.
  - rewrite (process_transaction_missing _ _ _ E). simpl.
    apply Inv_later; exact HI.
  - destruct fault as [f|].
    + rewrite (process_transaction_found_fault _ _ _ _ _ E). simpl.
      apply Inv_later; exact HI.
    + rewrite (process_transaction_found _ _ _ _ E). simpl.
      apply Inv_settle. exact HI.
Qed.

Lemma Inv_exec e w : Inv w → Inv (exec e w).
Proof.
  intros HI. destruct e as [fault payload|tid|i fault|d]; simpl.
  - apply Inv_receive_webhook. exact HI.
  - rewrite get_transaction_world. exact HI.
  - destruct (background_tasks w !! i) as [tid|]; [|exact HI].
    apply Inv_process_transaction.
    unfold with_background_tasks. apply Inv_later; exact HI.
  - unfold with_clock. apply Inv_later; exact HI.
Qed.

Lemma Inv_run evs w : Inv w → Inv (run evs w).
Proof.
  revert w. induction evs as [|e evs IH]; intros w HI; simpl; [exact HI|].
  apply IH. apply Inv_exec. exact HI.
Qed.

Lemma reachable_Inv w : reachable w → Inv w.
Proof. intros [p [t0 [evs ->]]]. apply Inv_run. apply Inv_init. Qed.

Lemma reachable_init p t0 : reachable (init p t0).
Proof. exists p, t0, []. reflexivity. Qed.

Lemma run_app evs1 evs2 w : run (evs1 ++ evs2) w = run evs2 (run evs1 w).
Proof.
  revert w. induction evs1 as [|e evs1 IH]; intros w; simpl; [reflexivity|].
  apply IH.
Qed.

Lemma reachable_run evs w : reachable w → reachable (run evs w).
Proof.
  intros [p [t0 [evs0 ->]]]. exists p, t0, (evs0 ++ evs). symmetry. apply run_app.
Qed.

(** ** Rows are kept, and only settled *)

Lemma evolves_refl r : evolves r r.
Proof. unfold evolves. tauto. Qed.

Lemma evolves_trans r1 r2 r3 : evolves r1 r2 → evolves r2 r3 → evolves r1 r3.
Proof.
  unfold evolves. intros H12 H23.
  destruct H12 as (?&?&?&?&?&?&?&?), H23 as (?&?&?&?&?&?&?&?).
  repeat split; try congruence. auto.
Qed.

Lemma evolves_settle_row now r : evolves r (settle_row now r).
Proof. unfold evolves. simpl. tauto. Qed.

Lemma receive_webhook_table fault payload w :
  snd (receive_webhook fault payload w) = w
  ∨ snd (receive_webhook fault payload w)
    = mkWorld (table w ++ [new_row payload w]) (N.succ (next_uuid w)) (clock w)
              (background_tasks w ++ [TransactionCreate.transaction_id payload])
              (platform w).
Proof.
  destruct fault as [f|]; [left; reflexivity|].
  destruct (decide (next_uuid w ∈ Transaction.id <$> table w)) as [Hk|Hk].
  { left. rewrite (receive_webhook_pk_clash _ _ Hk). reflexivity. }
  destruct (decide (TransactionCreate.transaction_id payload
                      ∈ Transaction.transaction_id <$> table w)) as [Hd|Hn].
  - left. rewrite (receive_webhook_duplicate _ _ Hd). reflexivity.
  - right. rewrite (receive_webhook_insert _ _ Hk Hn). reflexivity.
Qed.

Lemma process_transaction_table fault tid w :
  table (snd (process_transaction fault tid w)) = table w
  ∨ ∃ pk, table (snd (process_transaction fault tid w))
          = settle_where pk (timestamptz_of_naive (platform w) (clock w + 30)) <$> table w.
Proof.
  destruct (rows_of tid w) as [|txn rest] eqn:E.
  - left. rewrite (process_transaction_missing _ _ _ E). reflexivity.
  - destruct fault as [f|].
    + left. rewrite (process_transaction_found_fault _ _ _ _ _ E). reflexivity.
    + right. exists (Transaction.id txn).
      rewrite (process_transaction_found _ _ _ _ E). reflexivity.
Qed.

Lemma process_transaction_keeps fault tid w i r :
  table w !! i = Some r →
  ∃ r', table (snd (process_transaction fault tid w)) !! i = Some r' ∧ evolves r r'.
Proof.
  intros Hi. destruct (process_transaction_table fault tid w) as [-> | [pk ->]].
  - exists r. split; [exact Hi | apply evolves_refl].
  - rewrite list_lookup_fmap, Hi. simpl. unfold settle_where.
    destruct (decide (Transaction.id r = pk)).
    + eexists. split; [reflexivity | apply evolves_settle_row].
    + exists r. split; [reflexivity | apply evolves_refl].
Qed.

Lemma exec_keeps e w i r :
  table w !! i = Some r →
  ∃ r', table (exec e w) !! i = Some r' ∧ evolves r r'.
Proof.
  intros Hi. destruct e as [fault payload|tid|j fault|d]; simpl.
  - destruct (receive_webhook_table fault payload w) as [-> | ->].
    + exists r. split; [exact Hi | apply evolves_refl].
    + exists r. split; [|apply evolves_refl]. simpl.
      apply lookup_app_l_Some. exact Hi.
  - rewrite get_transaction_world.
    exists r. split; [exact Hi | apply evolves_refl].
  - destruct (background_tasks w !! j) as [tid|].
    + apply process_transaction_keeps. exact Hi.
    + exists r. split; [exact Hi | apply evolves_refl].
  - exists r. split; [exact Hi | apply evolves_refl].
Qed.

Lemma run_keeps evs w i r :
  table w !! i = Some r →
  ∃ r', table (run evs w) !! i = Some r' ∧ evolves r r'.
Proof.
  revert w r. induction evs as [|e evs IH]; intros w r Hi; simpl.
  - exists r. split; [exact Hi | apply evolves_refl].
  - destruct (exec_keeps e w i r Hi) as [r1 [Hi1 Hev1]].
    destruct (IH _ _ Hi1) as [r2 [Hi2 Hev2]].
    exists r2. split; [exact Hi2 | eapply evolves_trans; eassumption].
Qed.

(** ** One row per [transaction_id] *)

Lemma rows_of_nil tid w :
  rows_of tid w = [] ↔ tid ∉ Transaction.transaction_id <$> table w.
Proof.
  unfold rows_of. generalize (table w) as rows.
  induction rows as [|r rows IH]; simpl.
  - split; [intros _ H; inversion H | reflexivity].
  - rewrite filter_cons. destruct (decide (Transaction.transaction_id r = tid)) as [E|E].
    + split; [discriminate|]. intros H. exfalso. apply H. rewrite E. left.
    + rewrite IH. split.
      * intros H Hin. apply elem_of_cons in Hin as [Hin|Hin]; [congruence|tauto].
      * intros H Hin. apply H. right. exact Hin.
Qed.

Lemma rows_of_unique_aux tid (rows : list Transaction.t) r :
  NoDup (Transaction.transaction_id <$> rows) →
  r ∈ rows → Transaction.transaction_id r = tid →
  filter (λ r, Transaction.transaction_id r = tid) rows = [r].
Proof.
  intros Hnd Hin <-. revert Hnd Hin.
  induction rows as [|r0 rows IH]; intros Hnd Hin; [inversion Hin|].
  simpl in Hnd. apply NoDup_cons in Hnd as [Hnotin Hnd].
  rewrite filter_cons. apply elem_of_cons in Hin as [->|Hin].
  - destruct (decide (Transaction.transaction_id r0 = Transaction.transaction_id r0));
      [|contradiction].
    f_equal.
    apply (proj2 (rows_of_nil (Transaction.transaction_id r0) (mkWorld rows 0%N 0 [] utc_platform))).
    exact Hnotin.
  - destruct (decide (Transaction.transaction_id r0 = Transaction.transaction_id r))
      as [E|E].
    + exfalso. apply Hnotin. rewrite E.
      apply list_elem_of_fmap. exists r. split; [reflexivity | exact Hin].
    + apply IH; assumption.
Qed.

Lemma rows_of_unique tid w r :
  Inv w → r ∈ table w → Transaction.transaction_id r = tid →
  rows_of tid w = [r].
Proof.
  intros HI Hin Htid. unfold rows_of.
  apply rows_of_unique_aux; [apply (inv_unique w HI) | exact Hin | exact Htid].
Qed.

Lemma lookup_found tid w txn rest :
  rows_of tid w = txn :: rest →
  lookup tid w = (Return [TransactionResponse.from_orm (platform w) txn], w).
Proof.
  intros E. unfold lookup, bind. rewrite (get_transaction_found _ _ _ _ E).
  reflexivity.
Qed.

Lemma settled_has_time w r :
  Inv w → r ∈ table w → Transaction.status r = "PROCESSED" →
  ∃ t, Transaction.processed_at r = Some t.
Proof.
  intros HI Hin Hst.
  pose proof (proj1 (Forall_forall _ _) (inv_processed w HI) r Hin) as Hp.
  simpl in Hp. destruct (Transaction.processed_at r) as [t|].
  - exists t. reflexivity.
  - rewrite Hst in Hp. discriminate.
Qed.

Lemma rows_of_settle_map tid pk now (rows : list Transaction.t) :
  filter (λ r, Transaction.transaction_id r = tid)
    (settle_where pk now <$> rows)
  = settle_where pk now
      <$> filter (λ r, Transaction.transaction_id r = tid) rows.
Proof.
  induction rows as [|r rows IH]; [reflexivity|].
  rewrite fmap_cons, !filter_cons, IH.
  assert (Htid : Transaction.transaction_id (settle_where pk now r)
                 = Transaction.transaction_id r).
  { unfold settle_where. destruct (decide (Transaction.id r = pk)); reflexivity. }
  rewrite Htid.
  destruct (decide (Transaction.transaction_id r = tid)); reflexivity.
Qed.

(** ** Ingestion *)

Lemma reachable_receive_webhook fault payload w :
  reachable w → reachable (snd (receive_webhook fault payload w)).
Proof. intros Hr. apply (reachable_run [PostWebhook fault payload] w Hr). Qed.

Lemma rows_of_insert tid payload w tasks :
  rows_of tid w = [] →
  TransactionCreate.transaction_id payload = tid →
  rows_of tid
    (mkWorld (table w ++ [new_row payload w]) (N.succ (next_uuid w)) (clock w) tasks (platform w))
  = [new_row payload w].
Proof.
  intros Hnil Htid. unfold rows_of in *. simpl.
  rewrite filter_app, Hnil, filter_cons. simpl.
  destruct (decide (TransactionCreate.transaction_id payload = tid));
    [reflexivity | contradiction].
Qed.

(** A fresh payload is stored once, and whatever happens next, the store
    keeps exactly that row for its key, changed by settlement at most. *)
Lemma stored_after_accept payload evs w :
  reachable w →
  rows_of (TransactionCreate.transaction_id payload) w = [] →
  let w1 := run evs (snd (receive_webhook None payload w)) in
  reachable w1
  ∧ ∃ r, rows_of (TransactionCreate.transaction_id payload) w1 = [r]
         ∧ evolves (new_row payload w) r.
Proof.
  intros Hr Hnil w1. split.
  { apply reachable_run, reachable_receive_webhook, Hr. }
  pose proof (reachable_Inv _ Hr) as HI.
  assert (HI1 : Inv w1).
  { apply reachable_Inv, reachable_run, reachable_receive_webhook, Hr. }
  subst w1.
  rewrite (receive_webhook_insert _ _ (Inv_next_uuid_fresh _ HI)
             (proj1 (rows_of_nil _ _) Hnil)) in *.
  simpl.
  set (w0 := mkWorld (table w ++ [new_row payload w]) (N.succ (next_uuid w)) (clock w)
                     (background_tasks w ++ [TransactionCreate.transaction_id payload])
             (platform w)) in *.
  assert (Hi : table w0 !! length (table w) = Some (new_row payload w)).
  { simpl. apply list_lookup_middle. reflexivity. }
  destruct (run_keeps evs w0 _ _ Hi) as [r [Hi' Hev]].
  exists r. split; [|exact Hev].
  apply rows_of_unique; [exact HI1 | | ].
  - apply list_elem_of_lookup. eexists. exact Hi'.
  - destruct Hev as (_ & Htid & _). rewrite Htid. reflexivity.
Qed.

(** C1 — Idempotent ingestion: when a payload with a transaction_id the
    store has not seen is accepted and, after any further events, a second
    payload with the same transaction_id is accepted, both calls return
    "accepted", the store ends with exactly one row for that
    transaction_id, the first call schedules exactly one settlement task
    (for that transaction_id) and the second call schedules none and
    stores nothing. *)
Theorem idempotent_ingestion p1 p2 evs w :
  reachable w →
  TransactionCreate.transaction_id p2 = TransactionCreate.transaction_id p1 →
  rows_of (TransactionCreate.transaction_id p1) w = [] →
  let w1 := snd (receive_webhook None p1 w) in
  let w1' := run evs w1 in
  let w2 := snd (receive_webhook None p2 w1') in
  fst (receive_webhook None p1 w) = Return "accepted"
  ∧ fst (receive_webhook None p2 w1') = Return "accepted"
  ∧ length (rows_of (TransactionCreate.transaction_id p1) w2) = 1%nat
  ∧ background_tasks w1
    = background_tasks w ++ [TransactionCreate.transaction_id p1]
  ∧ background_tasks w2 = background_tasks w1'
  ∧ table w2 = table w1'.
Proof.
  intros Hr Htid Hnil w1 w1' w2.
  destruct (stored_after_accept p1 evs w Hr Hnil) as [Hr1 [r [Hrows Hev]]].
  fold w1 in Hr1, Hrows. fold w1' in Hr1, Hrows.
  assert (Hdup : TransactionCreate.transaction_id p2
                 ∈ Transaction.transaction_id <$> table w1').
  { rewrite Htid. destruct (decide (TransactionCreate.transaction_id p1
                                      ∈ Transaction.transaction_id <$> table w1'))
      as [Hin|Hout]; [exact Hin|].
    apply rows_of_nil in Hout. rewrite Hout in Hrows. discriminate. }
  pose proof (receive_webhook_duplicate p2 w1' Hdup) as E2.
  pose proof (receive_webhook_insert p1 w
                (Inv_next_uuid_fresh _ (reachable_Inv _ Hr))
                (proj1 (rows_of_nil _ _) Hnil)) as E1.
  split; [rewrite E1; reflexivity|].
  split; [rewrite E2; reflexivity|].
  assert (Hw2 : w2 = w1') by (unfold w2; rewrite E2; reflexivity).
  assert (Hw1 : background_tasks w1
                = background_tasks w ++ [TransactionCreate.transaction_id p1])
    by (unfold w1; rewrite E1; reflexivity).
  clearbody w2. subst w2.
  split; [rewrite Hrows; reflexivity|].
  split; [exact Hw1|]. split; reflexivity.
Qed.

Lemma idempotent_ingestion_witness :
  let w := init utc_platform 1000 in
  let w1 := snd (receive_webhook None payload_tx1 w) in
  let w1' := run [Elapse 5; GetTransaction "tx-1"] w1 in
  let w2 := snd (receive_webhook None payload_tx1' w1') in
  fst (receive_webhook None payload_tx1 w) = Return "accepted"
  ∧ fst (receive_webhook None payload_tx1' w1') = Return "accepted"
  ∧ length (rows_of "tx-1" w2) = 1%nat
  ∧ background_tasks w1 = background_tasks w ++ ["tx-1"]
  ∧ background_tasks w2 = background_tasks w1'
  ∧ table w2 = table w1'.
Proof.
  apply (idempotent_ingestion payload_tx1 payload_tx1'
           [Elapse 5; GetTransaction "tx-1"] (init utc_platform 1000)).
  - apply reachable_init.
  - reflexivity.
  - reflexivity.
Defined.

(** C4 — No premature settlement: when accept stores a payload whose
    transaction_id the store has not seen, the lookup of that
    transaction_id right after the call returns exactly one record, for
    that transaction_id, with status PROCESSING and processed_at null. *)
Theorem no_premature_settlement payload w :
  reachable w →
  rows_of (TransactionCreate.transaction_id payload) w = [] →
  let w1 := snd (receive_webhook None payload w) in
  fst (receive_webhook None payload w) = Return "accepted"
  ∧ ∃ resp,
      lookup (TransactionCreate.transaction_id payload) w1 = (Return [resp], w1)
      ∧ TransactionResponse.transaction_id resp
        = TransactionCreate.transaction_id payload
      ∧ TransactionResponse.status resp = "PROCESSING"
      ∧ TransactionResponse.processed_at resp = None.
Proof.
  intros Hr Hnil w1. subst w1.
  rewrite (receive_webhook_insert _ _ (Inv_next_uuid_fresh _ (reachable_Inv _ Hr))
             (proj1 (rows_of_nil _ _) Hnil)).
  simpl. split; [reflexivity|].
  rewrite (lookup_found _ _ (new_row payload w) []).
  2:{ apply rows_of_insert; [exact Hnil | reflexivity]. }
  eexists. split; [reflexivity|]. repeat split.
Qed.

Lemma no_premature_settlement_witness :
  let w1 := snd (receive_webhook None payload_tx2 settled_tx1) in
  fst (receive_webhook None payload_tx2 settled_tx1) = Return "accepted"
  ∧ ∃ resp,
      lookup "tx-2" w1 = (Return [resp], w1)
      ∧ TransactionResponse.transaction_id resp = "tx-2"
      ∧ TransactionResponse.status resp = "PROCESSING"
      ∧ TransactionResponse.processed_at resp = None.
Proof.
  apply (no_premature_settlement payload_tx2 settled_tx1).
  - apply reachable_run, reachable_init.
  - reflexivity.
Defined.

(** C10 — Conflicting duplicate: once a payload has been stored, a later
    accept of any payload with the same transaction_id, whatever its other
    fields, returns "accepted" and leaves the whole world as it was (no
    new row, no task, no error), so the lookup answers as before; the one
    row stored under the transaction_id still carries what the first
    payload was stored as: its source account, destination account and
    currency, and the Numeric(12, 2) column value of its amount. *)
Theorem conflicting_duplicate_discarded p1 p2 evs w :
  reachable w →
  TransactionCreate.transaction_id p2 = TransactionCreate.transaction_id p1 →
  rows_of (TransactionCreate.transaction_id p1) w = [] →
  let w1 := run evs (snd (receive_webhook None p1 w)) in
  receive_webhook None p2 w1 = (Return "accepted", w1)
  ∧ http_status 202 (fst (receive_webhook None p2 w1)) = 202
  ∧ lookup (TransactionCreate.transaction_id p1) (snd (receive_webhook None p2 w1))
    = lookup (TransactionCreate.transaction_id p1) w1
  ∧ ∃ r, rows_of (TransactionCreate.transaction_id p1) w1 = [r]
         ∧ Transaction.source_account r = TransactionCreate.source_account p1
         ∧ Transaction.destination_account r
           = TransactionCreate.destination_account p1
         ∧ Transaction.amount r
           = numeric_12_2 (platform w) (TransactionCreate.amount p1)
         ∧ Transaction.currency r = TransactionCreate.currency p1.
Proof.
  intros Hr Htid Hnil w1.
  destruct (stored_after_accept p1 evs w Hr Hnil) as [Hr1 [r [Hrows Hev]]].
  fold w1 in Hr1, Hrows.
  assert (Hdup : TransactionCreate.transaction_id p2
                 ∈ Transaction.transaction_id <$> table w1).
  { rewrite Htid. destruct (decide (TransactionCreate.transaction_id p1
                                      ∈ Transaction.transaction_id <$> table w1))
      as [Hin|Hout]; [exact Hin|].
    apply rows_of_nil in Hout. rewrite Hout in Hrows. discriminate. }
  pose proof (receive_webhook_duplicate p2 w1 Hdup) as E2.
  split; [exact E2|]. split; [rewrite E2; reflexivity|].
  split; [rewrite E2; reflexivity|].
  exists r. split; [exact Hrows|].
  destruct Hev as (_ & _ & Hs & Hd & Ha & Hc & _).
  repeat split; assumption.
Qed.

Lemma conflicting_duplicate_discarded_witness :
  let w1 := run [Elapse 7] (snd (receive_webhook None payload_tx1 (init utc_platform 1000))) in
  receive_webhook None payload_tx1' w1 = (Return "accepted", w1)
  ∧ http_status 202 (fst (receive_webhook None payload_tx1' w1)) = 202
  ∧ lookup "tx-1" (snd (receive_webhook None payload_tx1' w1)) = lookup "tx-1" w1
  ∧ ∃ r, rows_of "tx-1" w1 = [r]
         ∧ Transaction.source_account r = "A"
         ∧ Transaction.destination_account r = "B"
         ∧ Transaction.amount r = half_away_hundredths (float_of_Z 10)
         ∧ Transaction.currency r = "USD".
Proof.
  apply (conflicting_duplicate_discarded payload_tx1 payload_tx1' [Elapse 7]
           (init utc_platform 1000)).
  - apply reachable_init.
  - reflexivity.
  - reflexivity.
Defined.

(** C5 — Failure handling of accept: a failure of the storage engine other
    than the integrity error leaves the handler as that exception (status
    500) with nothing stored and nothing scheduled; without such a failure
    the call returns "accepted", and it stores the row and schedules the
    task exactly when the transaction_id is not yet in the store, the
    duplicate being absorbed with the world unchanged.  So the only call
    that is acknowledged without storing is the one whose transaction_id
    is already stored, and a call that stores nothing schedules nothing. *)
Theorem accept_failure_handling fault payload w :
  reachable w →
  let r := fst (receive_webhook fault payload w) in
  let w' := snd (receive_webhook fault payload w) in
  match fault with
  | Some f =>
      r = Raise (StorageFailure f) ∧ http_status 202 r = 500 ∧ w' = w
  | None =>
      r = Return "accepted"
      ∧ if decide (TransactionCreate.transaction_id payload
                     ∈ Transaction.transaction_id <$> table w)
        then w' = w
        else table w' = table w ++ [new_row payload w]
             ∧ background_tasks w'
               = background_tasks w ++ [TransactionCreate.transaction_id payload]
  end
  ∧ (r = Return "accepted" → table w' = table w →
     fault = None
     ∧ TransactionCreate.transaction_id payload
         ∈ Transaction.transaction_id <$> table w)
  ∧ (table w' = table w → background_tasks w' = background_tasks w).
Proof.
  intros Hr r w'. subst r w'.
  destruct fault as [f|].
  - rewrite receive_webhook_fault. simpl.
    repeat split; try reflexivity. all: discriminate.
  - destruct (decide (TransactionCreate.transaction_id payload
                        ∈ Transaction.transaction_id <$> table w)) as [Hd|Hn].
    + rewrite (receive_webhook_duplicate _ _ Hd). simpl.
      repeat split; try reflexivity. exact Hd.
    + rewrite (receive_webhook_insert _ _
                 (Inv_next_uuid_fresh _ (reachable_Inv _ Hr)) Hn). simpl.
      assert (Hneq : table w ++ [new_row payload w] ≠ table w).
      { intros E. apply (f_equal length) in E. rewrite length_app in E.
        simpl in E. lia. }
      repeat split; try reflexivity; intros; contradiction.
Qed.

Lemma accept_failure_handling_witness :
  let r := fst (receive_webhook (Some OperationalError) payload_tx1 (init utc_platform 1000)) in
  let w' := snd (receive_webhook (Some OperationalError) payload_tx1 (init utc_platform 1000)) in
  (r = Raise (StorageFailure OperationalError) ∧ http_status 202 r = 500
   ∧ w' = init utc_platform 1000)
  ∧ (r = Return "accepted" → table w' = table (init utc_platform 1000) →
     Some OperationalError = None
     ∧ "tx-1" ∈ Transaction.transaction_id <$> table (init utc_platform 1000))
  ∧ (table w' = table (init utc_platform 1000) →
     background_tasks w' = background_tasks (init utc_platform 1000)).
Proof.
  apply (accept_failure_handling (Some OperationalError) payload_tx1 (init utc_platform 1000)).
  apply reachable_init.
Defined.

(** ** Settlement *)

Lemma rows_of_head_in tid w txn rest :
  rows_of tid w = txn :: rest →
  txn ∈ table w ∧ Transaction.transaction_id txn = tid.
Proof.
  intros E.
  assert (Hin : txn ∈ rows_of tid w) by (rewrite E; left).
  unfold rows_of in Hin. apply list_elem_of_filter in Hin. tauto.
Qed.

(** After accept has stored a payload and its settlement task has run
    without storage failure, every later lookup of the transaction_id
    returns one record whose status is PROCESSED and whose processed_at
    is set. *)
Lemma settlement_marks_processed payload evs1 evs2 w :
  reachable w →
  rows_of (TransactionCreate.transaction_id payload) w = [] →
  let tid := TransactionCreate.transaction_id payload in
  let w1 := run evs1 (snd (receive_webhook None payload w)) in
  let w2 := run evs2 (snd (process_transaction None tid w1)) in
  fst (process_transaction None tid w1) = Return tt
  ∧ ∃ resp t,
      lookup tid w2 = (Return [resp], w2)
      ∧ TransactionResponse.status resp = "PROCESSED"
      ∧ TransactionResponse.processed_at resp = Some t.
Proof.
  intros Hr Hnil tid w1 w2.
  destruct (stored_after_accept payload evs1 w Hr Hnil) as [Hr1 [r [Hrows Hev]]].
  fold tid in Hrows. fold w1 in Hr1, Hrows.
  pose proof (process_transaction_found tid w1 r [] Hrows) as Eset.
  assert (HI2 : Inv w2).
  { apply Inv_run, Inv_process_transaction, reachable_Inv, Hr1. }
  split; [rewrite Eset; reflexivity|].
  destruct (rows_of_head_in _ _ _ _ Hrows) as [Hin Htid].
  apply list_elem_of_lookup in Hin as [i Hi].
  assert (Hi2 : table (snd (process_transaction None tid w1)) !! i
                = Some (settle_row (timestamptz_of_naive (platform w1) (clock w1 + 30)) r)).
  { rewrite Eset. simpl. rewrite list_lookup_fmap, Hi. simpl.
    unfold settle_where. destruct (decide (Transaction.id r = Transaction.id r));
      [reflexivity | contradiction]. }
  destruct (run_keeps evs2 _ _ _ Hi2) as [r2 [Hi3 Hev2]].
  fold w2 in Hi3.
  assert (Hin2 : r2 ∈ table w2) by (apply list_elem_of_lookup; eauto).
  destruct Hev2 as (_ & Htid2 & _ & _ & _ & _ & _ & Hst).
  specialize (Hst eq_refl).
  destruct (settled_has_time w2 r2 HI2 Hin2 Hst) as [t Hp].
  exists (TransactionResponse.from_orm (platform w2) r2), t.
  split; [|split; assumption].
  apply (lookup_found tid w2 r2 []).
  apply rows_of_unique; [exact HI2 | exact Hin2 |].
  rewrite Htid2. exact Htid.
Qed.

(** C3, on a database session east of UTC — with the session's TimeZone
    Asia/Kolkata, "tx-1" accepted at the instant 1700000000 and settled
    by its task thirty seconds later is looked up as PROCESSED with a
    processed_at that is set, but 19770 seconds before created_at: the
    worker binds a datetime.utcnow() without time zone to the
    DateTime(timezone=True) column, which reads it as Kolkata time, while
    created_at is the server's now(). *)
Theorem settlement_stored_before_creation :
  lookup "tx-1" settled_tx1_kolkata
  = (Return [TransactionResponse.mk "tx-1" "A" "B" (float_of_Z 10) "USD"
               "PROCESSED" 1700000000 (Some 1699980230)],
     settled_tx1_kolkata)
  ∧ clock settled_tx1_kolkata = 1700000030
  ∧ 1699980230 < 1700000000.
Proof.
  split; [reflexivity|]. split; [reflexivity | lia].
Qed.

(** C7 — Settlement skip on missing record: a settlement task whose
    transaction_id has no row when it runs returns normally, whatever the
    engine would have done to a commit, and leaves the table, the key
    supply and the task queue as they were; only the thirty seconds of
    sleep have passed. *)
Theorem settlement_skips_missing_record fault tid w :
  rows_of tid w = [] →
  fst (process_transaction fault tid w) = Return tt
  ∧ table (snd (process_transaction fault tid w)) = table w
  ∧ snd (process_transaction fault tid w) = with_clock w (clock w + 30).
Proof.
  intros Hnil. rewrite (process_transaction_missing _ _ _ Hnil).
  repeat split.
Qed.

Lemma settlement_skips_missing_record_witness :
  let w := snd (receive_webhook None payload_tx1 (init utc_platform 1000)) in
  fst (process_transaction (Some DataError) "tx-2" w) = Return tt
  ∧ table (snd (process_transaction (Some DataError) "tx-2" w)) = table w
  ∧ snd (process_transaction (Some DataError) "tx-2" w) = with_clock w (clock w + 30).
Proof.
  apply (settlement_skips_missing_record (Some DataError) "tx-2"
           (snd (receive_webhook None payload_tx1 (init utc_platform 1000)))).
  reflexivity.
Defined.

(** C8 — Status is closed and monotonic: in every reachable store each
    row's status is PROCESSING or PROCESSED, and a row whose status is
    PROCESSED is still there, with the same keys and status PROCESSED,
    after any sequence of events (webhooks, lookups, settlement tasks,
    time passing). *)
Theorem status_closed_and_monotonic w :
  reachable w →
  Forall (λ r, Transaction.status r = "PROCESSING"
               ∨ Transaction.status r = "PROCESSED") (table w)
  ∧ ∀ evs i r,
      table w !! i = Some r →
      Transaction.status r = "PROCESSED" →
      ∃ r', table (run evs w) !! i = Some r'
            ∧ Transaction.id r' = Transaction.id r
            ∧ Transaction.transaction_id r' = Transaction.transaction_id r
            ∧ Transaction.status r' = "PROCESSED".
Proof.
  intros Hr. split.
  - apply (inv_status w (reachable_Inv w Hr)).
  - intros evs i r Hi Hst.
    destruct (run_keeps evs w i r Hi) as [r' [Hi' Hev]].
    exists r'. destruct Hev as (Hid & Htid & _ & _ & _ & _ & _ & Hmono).
    repeat split; auto.
Qed.

Lemma status_closed_and_monotonic_witness :
  let w := run [PostWebhook None payload_tx1; RunBackground 0 None] (init utc_platform 1000) in
  Forall (λ r, Transaction.status r = "PROCESSING"
               ∨ Transaction.status r = "PROCESSED") (table w)
  ∧ ∀ evs i r,
      table w !! i = Some r →
      Transaction.status r = "PROCESSED" →
      ∃ r', table (run evs w) !! i = Some r'
            ∧ Transaction.id r' = Transaction.id r
            ∧ Transaction.transaction_id r' = Transaction.transaction_id r
            ∧ Transaction.status r' = "PROCESSED".
Proof.
  apply (status_closed_and_monotonic
           (run [PostWebhook None payload_tx1; RunBackground 0 None] (init utc_platform 1000))).
  apply reachable_run, reachable_init.
Defined.

Lemma NoDup_fmap_eq {A B} (f : A → B) (l : list A) x y :
  NoDup (f <$> l) → x ∈ l → y ∈ l → f x = f y → x = y.
Proof.
  induction l as [|a l IH]; intros Hnd Hx Hy Hf; [inversion Hx|].
  simpl in Hnd. apply NoDup_cons in Hnd as [Hnotin Hnd].
  apply elem_of_cons in Hx as [->|Hx]; apply elem_of_cons in Hy as [->|Hy].
  - reflexivity.
  - exfalso. apply Hnotin. rewrite Hf. apply list_elem_of_fmap. eauto.
  - exfalso. apply Hnotin. rewrite <- Hf. apply list_elem_of_fmap. eauto.
  - apply IH; assumption.
Qed.

(** C9 — Frame of the settlement task: running the task for a
    transaction_id keeps the number of rows, keeps every row in its place
    with internal id, transaction_id, source account, destination account,
    amount, currency and created_at as they were, and leaves every row
    stored under another transaction_id entirely unchanged. *)
Theorem settlement_frame fault tid w :
  reachable w →
  let w' := snd (process_transaction fault tid w) in
  length (table w') = length (table w)
  ∧ ∀ i r,
      table w !! i = Some r →
      ∃ r', table w' !! i = Some r'
            ∧ Transaction.id r' = Transaction.id r
            ∧ Transaction.transaction_id r' = Transaction.transaction_id r
            ∧ Transaction.source_account r' = Transaction.source_account r
            ∧ Transaction.destination_account r'
              = Transaction.destination_account r
            ∧ Transaction.amount r' = Transaction.amount r
            ∧ Transaction.currency r' = Transaction.currency r
            ∧ Transaction.created_at r' = Transaction.created_at r
            ∧ (Transaction.transaction_id r ≠ tid → r' = r).
Proof.
  intros Hr w'. pose proof (reachable_Inv w Hr) as HI. subst w'.
  destruct (rows_of tid w) as [|txn rest] eqn:E.
  { rewrite (process_transaction_missing _ _ _ E). simpl.
    split; [reflexivity|]. intros i r Hi. exists r. repeat split; auto. }
  destruct fault as [f|].
  { rewrite (process_transaction_found_fault _ _ _ _ _ E). simpl.
    split; [reflexivity|]. intros i r Hi. exists r. repeat split; auto. }
  rewrite (process_transaction_found _ _ _ _ E). simpl.
  split; [apply length_fmap|].
  intros i r Hi. rewrite list_lookup_fmap, Hi. simpl.
  eexists. split; [reflexivity|].
  unfold settle_where.
  destruct (decide (Transaction.id r = Transaction.id txn)) as [Hpk|Hpk].
  - simpl. repeat split; try reflexivity.
    intros Hne. exfalso. apply Hne.
    destruct (rows_of_head_in _ _ _ _ E) as [Hin Htid].
    assert (Hrin : r ∈ table w) by (apply list_elem_of_lookup; eauto).
    rewrite (NoDup_fmap_eq Transaction.id (table w) r txn (inv_pk w HI) Hrin Hin Hpk).
    exact Htid.
  - repeat split; reflexivity.
Qed.

Lemma settlement_frame_witness :
  let w := run [PostWebhook None payload_tx1] (init utc_platform 1000) in
  let w' := snd (process_transaction None "tx-1" w) in
  length (table w') = length (table w)
  ∧ ∀ i r,
      table w !! i = Some r →
      ∃ r', table w' !! i = Some r'
            ∧ Transaction.id r' = Transaction.id r
            ∧ Transaction.transaction_id r' = Transaction.transaction_id r
            ∧ Transaction.source_account r' = Transaction.source_account r
            ∧ Transaction.destination_account r'
              = Transaction.destination_account r
            ∧ Transaction.amount r' = Transaction.amount r
            ∧ Transaction.currency r' = Transaction.currency r
            ∧ Transaction.created_at r' = Transaction.created_at r
            ∧ (Transaction.transaction_id r ≠ "tx-1" → r' = r).
Proof.
  apply (settlement_frame None "tx-1" (run [PostWebhook None payload_tx1] (init utc_platform 1000))).
  apply reachable_run, reachable_init.
Defined.

(** C6, as the code has it — Re-applying the settlement update: running
    the task for a row that is already PROCESSED returns normally and
    keeps the row's status PROCESSED and every other field, except
    processed_at, which is overwritten with the time of this run (as the
    column reads it), so the lookup differs from the one before unless
    that very timestamp was already stored; committing the same assigned
    values a second time changes nothing more. *)
Theorem resettle_overwrites_processed_at tid w txn rest :
  rows_of tid w = txn :: rest →
  Transaction.status txn = "PROCESSED" →
  let w' := snd (process_transaction None tid w) in
  let at_time := timestamptz_of_naive (platform w) (clock w + 30) in
  fst (process_transaction None tid w) = Return tt
  ∧ lookup tid w'
    = (Return [TransactionResponse.from_orm (platform w)
                 (Transaction.set_processed_at txn (Some at_time))],
       w')
  ∧ (Transaction.processed_at txn ≠ Some at_time →
     fst (lookup tid w') ≠ fst (lookup tid w))
  ∧ (∀ txn',
       Session.commit None txn' (snd (Session.commit None txn' w))
       = Session.commit None txn' w).
Proof.
  intros E Hst w' at_time.
  assert (Hlook : lookup tid w'
                  = (Return [TransactionResponse.from_orm (platform w)
                               (Transaction.set_processed_at txn (Some at_time))],
                     w')).
  { subst w'. rewrite (process_transaction_found _ _ _ _ E). simpl.
    erewrite lookup_found.
    2:{ unfold rows_of. simpl. rewrite rows_of_settle_map.
        unfold rows_of in E. rewrite E. rewrite fmap_cons. reflexivity. }
    unfold settle_where.
    destruct (decide (Transaction.id txn = Transaction.id txn)); [|contradiction].
    unfold settle_row, TransactionResponse.from_orm. simpl. rewrite Hst.
    reflexivity. }
  split; [rewrite (process_transaction_found _ _ _ _ E); reflexivity|].
  split; [exact Hlook|]. split.
  - intros Hne Heq. rewrite Hlook, (lookup_found _ _ _ _ E) in Heq. simpl in Heq.
    apply Hne. injection Heq as Heq. symmetry. exact Heq.
  - intros txn'. unfold Session.commit, with_table. simpl. f_equal. f_equal.
    rewrite <- list_fmap_compose. apply list_fmap_ext. intros i r _. simpl.
    destruct (decide (Transaction.id r = Transaction.id txn')) as [Hpk|Hpk]; simpl.
    + destruct (decide (Transaction.id r = Transaction.id txn'));
        [reflexivity|contradiction].
    + destruct (decide (Transaction.id r = Transaction.id txn'));
        [contradiction|reflexivity].
Qed.

Lemma resettle_overwrites_processed_at_witness :
  let w' := snd (process_transaction None "tx-1" settled_tx1) in
  let at_time := 1060 in
  fst (process_transaction None "tx-1" settled_tx1) = Return tt
  ∧ lookup "tx-1" w'
    = (Return [TransactionResponse.mk "tx-1" "A" "B" (float_of_Z 10) "USD"
                 "PROCESSED" 1000 (Some at_time)],
       w')
  ∧ (Some 1030 ≠ Some at_time →
     fst (lookup "tx-1" w') ≠ fst (lookup "tx-1" settled_tx1))
  ∧ (∀ txn',
       Session.commit None txn' (snd (Session.commit None txn' settled_tx1))
       = Session.commit None txn' settled_tx1).
Proof.
  apply (resettle_overwrites_processed_at "tx-1" settled_tx1
           (Transaction.mk 0%N "tx-1" "A" "B" (Fixed2 1000) "USD" "PROCESSED" 1000
              (Some 1030)) []);
    reflexivity.
Defined.

(** C6, as stated, fails — a second run of the settlement update on the
    PROCESSED row of "tx-1" does not give the end state of the first run:
    the lookup shows processed_at 1060 where the first run had left 1030. *)
Lemma resettle_not_idempotent :
  fst (lookup "tx-1" settled_tx1)
  = Return [TransactionResponse.mk "tx-1" "A" "B" (float_of_Z 10) "USD"
              "PROCESSED" 1000 (Some 1030)]
  ∧ fst (process_transaction None "tx-1" settled_tx1) = Return tt
  ∧ fst (lookup "tx-1" (snd (process_transaction None "tx-1" settled_tx1)))
    ≠ fst (lookup "tx-1" settled_tx1).
Proof.
  split; [reflexivity|]. split; [reflexivity|].
  intros E. vm_compute in E. discriminate E.
Qed.

(** ** Lookup *)

(** C2, at an id that was never ingested — with "tx-1" stored, the lookup
    of "tx-2" finds no row and then fails on the unbound name
    HTTPException: the handler leaves with NameError, which is answered
    with status 500 and not with the 404 it was written to give.  No
    record is returned and the world is unchanged. *)
Theorem lookup_unknown_raises_NameError :
  let w := snd (receive_webhook None payload_tx1 (init utc_platform 1000)) in
  rows_of "tx-2" w = []
  ∧ get_transaction "tx-2" w = (Raise (NameError "HTTPException"), w)
  ∧ lookup "tx-2" w = (Raise (NameError "HTTPException"), w)
  ∧ http_status 200 (fst (get_transaction "tx-2" w)) = 500
  ∧ http_status 200 (fst (get_transaction "tx-2" w)) ≠ 404.
Proof.
  simpl. repeat split; try reflexivity. discriminate.
Qed.

(** * Further properties of the handlers *)

(** ** Outcomes of the two routes *)

(** X2 — Outcomes of the lookup handler: get_transaction either returns a
    list of exactly one stored row, whose transaction_id is the one asked
    for, or, when no row has that transaction_id, leaves with NameError on
    HTTPException.  It never changes the world, and its answer has status
    200 or 500, never 404. *)
Theorem lookup_outcomes tid w :
  ((∃ txn, get_transaction tid w = (Return [txn], w)
           ∧ txn ∈ table w
           ∧ Transaction.transaction_id txn = tid)
   ∨ (get_transaction tid w = (Raise (NameError "HTTPException"), w)
      ∧ tid ∉ Transaction.transaction_id <$> table w))
  ∧ snd (lookup tid w) = w
  ∧ (http_status 200 (fst (get_transaction tid w)) = 200
     ∨ http_status 200 (fst (get_transaction tid w)) = 500).
Proof.
  destruct (rows_of tid w) as [|txn rest] eqn:E.
  - pose proof (get_transaction_missing tid w E) as Hg.
    split; [|split].
    + right. split; [exact Hg | apply rows_of_nil; exact E].
    + unfold lookup, bind. rewrite Hg. reflexivity.
    + right. rewrite Hg. reflexivity.
  - pose proof (get_transaction_found tid w txn rest E) as Hg.
    destruct (rows_of_head_in tid w txn rest E) as [Hin Htid].
    split; [|split].
    + left. exists txn. auto.
    + unfold lookup, bind. rewrite Hg. reflexivity.
    + left. rewrite Hg. reflexivity.
Qed.

(** X3 — Outcomes of the webhook handler: receive_webhook returns
    "accepted" unless the storage engine fails, in which case exactly that
    failure leaves the handler; IntegrityError never does.  The call
    either leaves the world as it was or appends one PROCESSING row built
    from the payload together with one task for the payload's
    transaction_id: a row is never stored without its task, nor a task
    scheduled without its row. *)
Theorem accept_outcomes fault payload w :
  let r := fst (receive_webhook fault payload w) in
  let w' := snd (receive_webhook fault payload w) in
  match fault with
  | Some f => r = Raise (StorageFailure f) ∧ w' = w
  | None => r = Return "accepted" ∧ http_status 202 r = 202
  end
  ∧ r ≠ Raise IntegrityError
  ∧ (w' = w
     ∨ (fault = None
        ∧ (TransactionCreate.transaction_id payload
             ∉ Transaction.transaction_id <$> table w)
        ∧ table w' = table w ++ [new_row payload w]
        ∧ background_tasks w'
          = background_tasks w ++ [TransactionCreate.transaction_id payload]
        ∧ clock w' = clock w)).
Proof.
  intros r w'. subst r w'. destruct fault as [f|].
  { rewrite receive_webhook_fault. simpl.
    split; [split; reflexivity|]. split; [discriminate | left; reflexivity]. }
  destruct (decide (next_uuid w ∈ Transaction.id <$> table w)) as [Hk|Hk].
  { rewrite (receive_webhook_pk_clash _ _ Hk). simpl.
    split; [split; reflexivity|]. split; [discriminate | left; reflexivity]. }
  destruct (decide (TransactionCreate.transaction_id payload
                      ∈ Transaction.transaction_id <$> table w)) as [Hd|Hn].
  { rewrite (receive_webhook_duplicate _ _ Hd). simpl.
    split; [split; reflexivity|]. split; [discriminate | left; reflexivity]. }
  rewrite (receive_webhook_insert _ _ Hk Hn). simpl.
  split; [split; reflexivity|]. split; [discriminate|].
  right. repeat split; try reflexivity. exact Hn.
Qed.

(** X12 — Frame of the webhook handler: whatever the payload and the
    outcome, accepting it leaves the rows stored under every other
    transaction_id exactly as they were. *)
Theorem accept_frame fault payload tid w :
  tid ≠ TransactionCreate.transaction_id payload →
  rows_of tid (snd (receive_webhook fault payload w)) = rows_of tid w.
Proof.
  intros Hne.
  destruct (receive_webhook_table fault payload w) as [-> | ->];
    [reflexivity|].
  unfold rows_of. simpl. rewrite filter_app, filter_cons. simpl.
  destruct (decide (TransactionCreate.transaction_id payload = tid)) as [E|E].
  - exfalso. apply Hne. symmetry. exact E.
  - rewrite filter_nil. apply app_nil_r.
Qed.

Lemma accept_frame_witness :
  rows_of "tx-1"
    (snd (receive_webhook None
            (TransactionCreate.mk "tx-2" "C" "D" (float_of_Z 5) "EUR") settled_tx1))
  = rows_of "tx-1" settled_tx1.
Proof.
  apply (accept_frame None (TransactionCreate.mk "tx-2" "C" "D" (float_of_Z 5) "EUR")
           "tx-1" settled_tx1).
  discriminate.
Defined.

(** ** Invariants of reachable stores *)

Lemma run_preserves (P : World → Prop) :
  (∀ e w, reachable w → P w → P (exec e w)) →
  ∀ evs w, reachable w → P w → P (run evs w).
Proof.
  intros Hstep evs. induction evs as [|e evs IH]; intros w Hr HP; simpl;
    [exact HP|].
  apply IH.
  - apply (reachable_run [e] w Hr).
  - apply Hstep; assumption.
Qed.

Lemma reachable_preserves (P : World → Prop) :
  (∀ p t0, P (init p t0)) →
  (∀ e w, reachable w → P w → P (exec e w)) →
  ∀ w, reachable w → P w.
Proof.
  intros Hinit Hstep w [p [t0 [evs ->]]].
  apply run_preserves; [exact Hstep | apply reachable_init | apply Hinit].
Qed.

Lemma process_transaction_queue fault tid w :
  background_tasks (snd (process_transaction fault tid w)) = background_tasks w
  ∧ next_uuid (snd (process_transaction fault tid w)) = next_uuid w
  ∧ clock (snd (process_transaction fault tid w)) = clock w + 30.
Proof.
  destruct (rows_of tid w) as [|txn rest] eqn:E.
  - rewrite (process_transaction_missing _ _ _ E). repeat split.
  - destruct fault as [f|].
    + rewrite (process_transaction_found_fault _ _ _ _ _ E). repeat split.
    + rewrite (process_transaction_found _ _ _ _ E). repeat split.
Qed.

(** A settlement task does not touch the rows of other transaction ids. *)
Lemma process_transaction_other fault tid w i r :
  Inv w →
  table w !! i = Some r →
  Transaction.transaction_id r ≠ tid →
  table (snd (process_transaction fault tid w)) !! i = Some r.
Proof.
  intros HI Hi Hne.
  destruct (rows_of tid w) as [|txn rest] eqn:E.
  { rewrite (process_transaction_missing _ _ _ E). exact Hi. }
  destruct fault as [f|].
  { rewrite (process_transaction_found_fault _ _ _ _ _ E). exact Hi. }
  rewrite (process_transaction_found _ _ _ _ E). simpl.
  rewrite list_lookup_fmap, Hi. simpl. f_equal.
  unfold settle_where.
  destruct (decide (Transaction.id r = Transaction.id txn)) as [Hpk|Hpk];
    [|reflexivity].
  exfalso. apply Hne.
  destruct (rows_of_head_in _ _ _ _ E) as [Hin Htid].
  rewrite (NoDup_fmap_eq Transaction.id (table w) r txn (inv_pk w HI)
             (list_elem_of_lookup_2 _ _ _ Hi) Hin Hpk).
  exact Htid.
Qed.

(** X1 — Every stored row can be looked up: in a reachable store the
    lookup of the transaction_id of any stored row returns exactly that
    row, as a list of one response carrying the row's eight public
    columns (the amount as the float the schema takes from the column's
    decimal), and leaves the world unchanged. *)
Theorem lookup_stored w r :
  reachable w →
  r ∈ table w →
  lookup (Transaction.transaction_id r) w
  = (Return [TransactionResponse.mk
               (Transaction.transaction_id r) (Transaction.source_account r)
               (Transaction.destination_account r)
               (float_of_numeric (platform w) (Transaction.amount r))
               (Transaction.currency r) (Transaction.status r)
               (Transaction.created_at r) (Transaction.processed_at r)],
     w).
Proof.
  intros Hr Hin.
  apply (lookup_found _ w r []).
  apply rows_of_unique; [apply reachable_Inv; exact Hr | exact Hin | reflexivity].
Qed.

Lemma lookup_stored_witness :
  lookup "tx-1" settled_tx1
  = (Return [TransactionResponse.mk "tx-1" "A" "B" (float_of_Z 10) "USD"
               "PROCESSED" 1000 (Some 1030)],
     settled_tx1).
Proof.
  apply (lookup_stored settled_tx1
           (Transaction.mk 0%N "tx-1" "A" "B" (Fixed2 1000) "USD" "PROCESSED"
              1000 (Some 1030))).
  - apply reachable_run, reachable_init.
  - left.
Defined.

(** X5 — Status and processed_at agree: in every reachable store a row is
    PROCESSING exactly when its processed_at is null and PROCESSED exactly
    when processed_at holds a timestamp. *)
Theorem status_matches_processed_at w r :
  reachable w →
  r ∈ table w →
  (Transaction.status r = "PROCESSING" ↔ Transaction.processed_at r = None)
  ∧ (Transaction.status r = "PROCESSED"
     ↔ ∃ t, Transaction.processed_at r = Some t).
Proof.
  intros Hr Hin. pose proof (reachable_Inv w Hr) as HI.
  pose proof (proj1 (Forall_forall _ _) (inv_processed w HI) r Hin) as Hp.
  simpl in Hp.
  destruct (Transaction.processed_at r) as [t|].
  - split; [split; [intros E; rewrite Hp in E; discriminate | discriminate]|].
    split; [intros _; eauto | intros _; exact Hp].
  - split; [split; [reflexivity | intros _; exact Hp]|].
    split; [intros E; rewrite Hp in E; discriminate
           | intros [t Ht]; discriminate].
Qed.

Lemma status_matches_processed_at_witness :
  let r := Transaction.mk 1%N "tx-2" "C" "D" (Fixed2 13) "EUR" "PROCESSING"
             1030 None in
  (Transaction.status r = "PROCESSING" ↔ Transaction.processed_at r = None)
  ∧ (Transaction.status r = "PROCESSED"
     ↔ ∃ t, Transaction.processed_at r = Some t).
Proof.
  apply (status_matches_processed_at two_rows).
  - apply reachable_run, reachable_init.
  - right. left.
Defined.

(** ** The task queue *)

Lemma not_elem_of_delete {A} (l : list A) i x :
  NoDup l → l !! i = Some x → x ∉ delete i l.
Proof.
  revert i. induction l as [|a l IH]; intros i Hnd Hi; [discriminate|].
  apply NoDup_cons in Hnd as [Ha Hnd]. destruct i as [|i]; simpl in *.
  - injection Hi as <-. exact Ha.
  - intros Hin. apply elem_of_cons in Hin as [->|Hin].
    + apply Ha. eapply list_elem_of_lookup_2. exact Hi.
    + exact (IH i Hnd Hi Hin).
Qed.

Lemma elem_of_delete_inv {A} (l : list A) i x : x ∈ delete i l → x ∈ l.
Proof.
  revert i. induction l as [|a l IH]; intros i Hin; [destruct i; exact Hin|].
  destruct i as [|i]; simpl in Hin.
  - right. exact Hin.
  - apply elem_of_cons in Hin as [->|Hin]; [left | right; eapply IH; exact Hin].
Qed.

Lemma Pending_exec e w : reachable w → Pending w → Pending (exec e w).
Proof.
  intros Hr [Hnd Hrows]. pose proof (reachable_Inv w Hr) as HI.
  destruct e as [fault payload|tid|i fault|d]; simpl.
  - destruct fault as [f|]; [split; assumption|].
    destruct (decide (TransactionCreate.transaction_id payload
                        ∈ Transaction.transaction_id <$> table w)) as [Hd|Hn].
    { rewrite (receive_webhook_duplicate _ _ Hd). split; assumption. }
    rewrite (receive_webhook_insert _ _ (Inv_next_uuid_fresh _ HI) Hn).
    split; simpl.
    + apply NoDup_app. split; [exact Hnd|]. split; [|apply NoDup_singleton].
      intros x Hx Hx'. apply list_elem_of_singleton in Hx'. subst x.
      destruct (proj1 (Forall_forall _ _) Hrows _ Hx) as [r [Hin [Htid _]]].
      apply Hn. rewrite <- Htid. apply list_elem_of_fmap. eauto.
    + apply Forall_app. split.
      * eapply Forall_impl; [exact Hrows|]. simpl.
        intros x [r [Hin Hx]]. exists r. split; [|exact Hx].
        apply elem_of_app. left. exact Hin.
      * apply Forall_singleton. exists (new_row payload w).
        split; [|split; reflexivity].
        apply elem_of_app. right. apply list_elem_of_singleton. reflexivity.
  - rewrite get_transaction_world. split; assumption.
  - destruct (background_tasks w !! i) as [tid|] eqn:Ei; [|split; assumption].
    set (w0 := with_background_tasks w (delete i (background_tasks w))).
    assert (HI0 : Inv w0) by (apply Inv_later; exact HI).
    destruct (process_transaction_queue fault tid w0) as [Hq _].
    split; rewrite Hq; simpl.
    + apply (sublist_NoDup _ _ Hnd (sublist_delete _ _)).
    + apply Forall_forall. intros x Hx.
      assert (Hne : x ≠ tid).
      { intros ->. exact (not_elem_of_delete _ _ _ Hnd Ei Hx). }
      apply elem_of_delete_inv in Hx.
      destruct (proj1 (Forall_forall _ _) Hrows _ Hx) as [r [Hin [Htid Hst]]].
      apply list_elem_of_lookup_1 in Hin as [k Hk].
      exists r. split; [|split; assumption].
      eapply list_elem_of_lookup_2.
      apply (process_transaction_other fault tid w0 k r HI0 Hk).
      rewrite Htid. exact Hne.
  - split; assumption.
Qed.

Lemma reachable_Pending w : reachable w → Pending w.
Proof.
  apply reachable_preserves.
  - intros t0. split; simpl; [apply NoDup_nil_2 | apply Forall_nil_2].
  - apply Pending_exec.
Qed.

(** X7 — Scheduled tasks are pending settlements: in every reachable
    world no transaction_id is scheduled twice, and every scheduled task
    is for a transaction_id that has exactly one stored row, whose status
    is PROCESSING and whose processed_at is null. *)
Theorem scheduled_tasks_pending w :
  reachable w →
  NoDup (background_tasks w)
  ∧ ∀ tid, tid ∈ background_tasks w →
      ∃ r, rows_of tid w = [r]
           ∧ Transaction.status r = "PROCESSING"
           ∧ Transaction.processed_at r = None.
Proof.
  intros Hr. pose proof (reachable_Inv w Hr) as HI.
  destruct (reachable_Pending w Hr) as [Hnd Hrows].
  split; [exact Hnd|]. intros tid Hin.
  destruct (proj1 (Forall_forall _ _) Hrows _ Hin) as [r [Hr_in [Htid Hst]]].
  exists r. split; [apply rows_of_unique; assumption|]. split; [exact Hst|].
  pose proof (proj1 (Forall_forall _ _) (inv_processed w HI) r Hr_in) as Hp.
  simpl in Hp. destruct (Transaction.processed_at r) as [t|]; [|reflexivity].
  rewrite Hst in Hp. discriminate.
Qed.

Lemma scheduled_tasks_pending_witness :
  let w := run [PostWebhook None payload_tx1] (init utc_platform 1000) in
  NoDup (background_tasks w)
  ∧ ∀ tid, tid ∈ background_tasks w →
      ∃ r, rows_of tid w = [r]
           ∧ Transaction.status r = "PROCESSING"
           ∧ Transaction.processed_at r = None.
Proof.
  apply (scheduled_tasks_pending (run [PostWebhook None payload_tx1] (init utc_platform 1000))).
  apply reachable_run, reachable_init.
Defined.

Lemma unscheduled_exec e w i r :
  reachable w → unscheduled i r w → unscheduled i r (exec e w).
Proof.
  intros Hr [Hi Hout]. pose proof (reachable_Inv w Hr) as HI.
  destruct e as [fault payload|tid|j fault|d]; simpl.
  - destruct fault as [f|]; [split; assumption|].
    destruct (decide (TransactionCreate.transaction_id payload
                        ∈ Transaction.transaction_id <$> table w)) as [Hd|Hn].
    { rewrite (receive_webhook_duplicate _ _ Hd). split; assumption. }
    rewrite (receive_webhook_insert _ _ (Inv_next_uuid_fresh _ HI) Hn).
    split; simpl.
    + apply lookup_app_l_Some. exact Hi.
    + intros Hin. apply elem_of_app in Hin as [Hin|Hin]; [exact (Hout Hin)|].
      apply list_elem_of_singleton in Hin. apply Hn. rewrite <- Hin.
      apply list_elem_of_fmap. exists r. split; [reflexivity|].
      eapply list_elem_of_lookup_2. exact Hi.
  - rewrite get_transaction_world. split; assumption.
  - destruct (background_tasks w !! j) as [tid|] eqn:Ej; [|split; assumption].
    set (w0 := with_background_tasks w (delete j (background_tasks w))).
    assert (HI0 : Inv w0) by (apply Inv_later; exact HI).
    destruct (process_transaction_queue fault tid w0) as [Hq _].
    split.
    + apply (process_transaction_other fault tid w0 i r HI0 Hi).
      intros E. apply Hout. rewrite E. eapply list_elem_of_lookup_2. exact Ej.
    + rewrite Hq. simpl. intros Hin. apply Hout.
      eapply elem_of_delete_inv. exact Hin.
  - split; assumption.
Qed.

Lemma unscheduled_run evs w i r :
  reachable w → unscheduled i r w → unscheduled i r (run evs w).
Proof.
  intros Hr Hu.
  apply (run_preserves (unscheduled i r)); [|exact Hr|exact Hu].
  intros e w'. apply unscheduled_exec.
Qed.

(** X9 — A settled row is final: in a reachable store a row whose status
    is PROCESSED has no task left in the queue, and after any sequence of
    events it is still in its place with every column, processed_at
    included, exactly as it was.  So in the running system each row is
    settled at most once. *)
Theorem settled_row_is_final w i r :
  reachable w →
  table w !! i = Some r →
  Transaction.status r = "PROCESSED" →
  (Transaction.transaction_id r ∉ background_tasks w)
  ∧ ∀ evs, table (run evs w) !! i = Some r.
Proof.
  intros Hr Hi Hst.
  assert (Hout : Transaction.transaction_id r ∉ background_tasks w).
  { intros Hin.
    destruct (proj1 (Forall_forall _ _) (pending_rows w (reachable_Pending w Hr))
                _ Hin) as [r' [Hin' [Htid' Hst']]].
    rewrite (NoDup_fmap_eq Transaction.transaction_id (table w) r' r
               (inv_unique w (reachable_Inv w Hr)) Hin'
               (list_elem_of_lookup_2 _ _ _ Hi) Htid') in Hst'.
    rewrite Hst in Hst'. discriminate. }
  split; [exact Hout|].
  intros evs. apply (unscheduled_run evs w i r Hr). split; assumption.
Qed.

Lemma settled_row_is_final_witness :
  let r := Transaction.mk 0%N "tx-1" "A" "B" (Fixed2 1000) "USD" "PROCESSED"
             1000 (Some 1030) in
  ("tx-1" ∉ background_tasks settled_tx1)
  ∧ ∀ evs, table (run evs settled_tx1) !! 0%nat = Some r.
Proof.
  apply (settled_row_is_final settled_tx1 0
           (Transaction.mk 0%N "tx-1" "A" "B" (Fixed2 1000) "USD" "PROCESSED"
              1000 (Some 1030))).
  - apply reachable_run, reachable_init.
  - reflexivity.
  - reflexivity.
Defined.

(** X10 — Running a scheduled task settles its row: in a reachable world,
    when the scheduler runs the i-th task of the queue and the commit does
    not fail, the task is taken off the queue, the one row of its
    transaction_id goes from PROCESSING to PROCESSED with processed_at
    set to the worker's utcnow reading after the sleep, as the column
    reads it, and the lookup shows exactly that. *)
Theorem run_task_settles w i tid :
  reachable w →
  background_tasks w !! i = Some tid →
  let w' := exec (RunBackground i None) w in
  ∃ r, rows_of tid w = [r]
       ∧ Transaction.status r = "PROCESSING"
       ∧ lookup tid w'
         = (Return [TransactionResponse.mk
                      tid (Transaction.source_account r)
                      (Transaction.destination_account r)
                      (float_of_numeric (platform w) (Transaction.amount r))
                      (Transaction.currency r) "PROCESSED"
                      (Transaction.created_at r)
                      (Some (timestamptz_of_naive (platform w) (clock w + 30)))],
            w')
       ∧ background_tasks w' = delete i (background_tasks w)
       ∧ clock w' = clock w + 30.
Proof.
  intros Hr Ei w'. subst w'. simpl. rewrite Ei.
  pose proof (reachable_Inv w Hr) as HI.
  destruct (proj1 (Forall_forall _ _) (pending_rows w (reachable_Pending w Hr))
              tid (list_elem_of_lookup_2 _ _ _ Ei)) as [r [Hin [Htid Hst]]].
  pose proof (rows_of_unique tid w r HI Hin Htid) as Hrows.
  set (w0 := with_background_tasks w (delete i (background_tasks w))).
  assert (Hrows0 : rows_of tid w0 = [r]) by exact Hrows.
  exists r. split; [exact Hrows|]. split; [exact Hst|].
  rewrite (process_transaction_found tid w0 r [] Hrows0). simpl.
  split; [|split; reflexivity].
  rewrite (lookup_found tid _ (settle_row (timestamptz_of_naive (platform w) (clock w + 30)) r) []).
  - unfold TransactionResponse.from_orm, settle_row. simpl. rewrite Htid.
    reflexivity.
  - unfold rows_of. simpl. rewrite rows_of_settle_map.
    unfold rows_of in Hrows. rewrite Hrows. simpl. unfold settle_where.
    destruct (decide (Transaction.id r = Transaction.id r));
      [reflexivity | contradiction].
Qed.

Lemma run_task_settles_witness :
  let w := run [PostWebhook None payload_tx1; Elapse 4] (init utc_platform 1000) in
  let w' := exec (RunBackground 0 None) w in
  ∃ r, rows_of "tx-1" w = [r]
       ∧ Transaction.status r = "PROCESSING"
       ∧ lookup "tx-1" w'
         = (Return [TransactionResponse.mk
                      "tx-1" (Transaction.source_account r)
                      (Transaction.destination_account r)
                      (nearest_float (Transaction.amount r))
                      (Transaction.currency r) "PROCESSED"
                      (Transaction.created_at r) (Some (clock w + 30))],
            w')
       ∧ background_tasks w' = delete 0%nat (background_tasks w)
       ∧ clock w' = clock w + 30.
Proof.
  apply (run_task_settles (run [PostWebhook None payload_tx1; Elapse 4] (init utc_platform 1000))
           0 "tx-1").
  - apply reachable_run, reachable_init.
  - reflexivity.
Defined.

(** X11 — A failed settlement is never retried: in a reachable world, when
    the scheduler runs a task and the commit of the update fails, the
    storage failure leaves the task, the task is gone from the queue, and
    after any further events the lookup of its transaction_id still shows
    the row with status PROCESSING and processed_at null. *)
Theorem failed_settlement_never_retried w i tid f evs :
  reachable w →
  background_tasks w !! i = Some tid →
  let w0 := with_background_tasks w (delete i (background_tasks w)) in
  let w' := exec (RunBackground i (Some f)) w in
  fst (process_transaction (Some f) tid w0) = Raise (StorageFailure f)
  ∧ (tid ∉ background_tasks w')
  ∧ ∃ resp,
      lookup tid (run evs w') = (Return [resp], run evs w')
      ∧ TransactionResponse.status resp = "PROCESSING"
      ∧ TransactionResponse.processed_at resp = None.
Proof.
  intros Hr Ei w0 w'.
  pose proof (reachable_Inv w Hr) as HI.
  destruct (reachable_Pending w Hr) as [Hnd Hpend].
  destruct (proj1 (Forall_forall _ _) Hpend tid (list_elem_of_lookup_2 _ _ _ Ei))
    as [r [Hin [Htid Hst]]].
  assert (Hrows0 : rows_of tid w0 = [r]) by (apply (rows_of_unique tid w r HI Hin Htid)).
  pose proof (process_transaction_found_fault f tid w0 r [] Hrows0) as Efail.
  assert (Ew' : w' = with_clock w0 (clock w0 + 30)).
  { unfold w'. simpl. rewrite Ei. fold w0. rewrite Efail. reflexivity. }
  assert (Hr' : reachable w') by (apply (reachable_run [RunBackground i (Some f)] w Hr)).
  assert (Hout : tid ∉ background_tasks w').
  { rewrite Ew'. simpl. apply (not_elem_of_delete _ _ _ Hnd Ei). }
  split; [rewrite Efail; reflexivity|]. split; [exact Hout|].
  apply list_elem_of_lookup_1 in Hin as [k Hk].
  assert (Hu : unscheduled k r w').
  { split; [rewrite Ew'; exact Hk | rewrite Htid; exact Hout]. }
  destruct (unscheduled_run evs w' k r Hr' Hu) as [Hk' _].
  pose proof (reachable_Inv _ (reachable_run evs w' Hr')) as HI'.
  pose proof (list_elem_of_lookup_2 _ _ _ Hk') as Hin'.
  exists (TransactionResponse.from_orm (platform (run evs w')) r).
  split; [|split; [exact Hst|]].
  - apply (lookup_found tid _ r []). apply rows_of_unique; assumption.
  - pose proof (proj1 (Forall_forall _ _) (inv_processed _ HI') r Hin') as Hp.
    simpl in Hp. simpl. destruct (Transaction.processed_at r) as [t|]; [|reflexivity].
    rewrite Hst in Hp. discriminate.
Qed.

Lemma failed_settlement_never_retried_witness :
  let w := run [PostWebhook None payload_tx1] (init utc_platform 1000) in
  let evs := [PostWebhook None payload_tx1'; RunBackground 0 None; Elapse 60] in
  let w0 := with_background_tasks w (delete 0%nat (background_tasks w)) in
  let w' := exec (RunBackground 0 (Some OperationalError)) w in
  fst (process_transaction (Some OperationalError) "tx-1" w0)
  = Raise (StorageFailure OperationalError)
  ∧ ("tx-1" ∉ background_tasks w')
  ∧ ∃ resp,
      lookup "tx-1" (run evs w') = (Return [resp], run evs w')
      ∧ TransactionResponse.status resp = "PROCESSING"
      ∧ TransactionResponse.processed_at resp = None.
Proof.
  apply (failed_settlement_never_retried
           (run [PostWebhook None payload_tx1] (init utc_platform 1000)) 0 "tx-1" OperationalError
           [PostWebhook None payload_tx1'; RunBackground 0 None; Elapse 60]).
  - apply reachable_run, reachable_init.
  - reflexivity.
Defined.

(** ** Rows over time *)

(** X8 — Rows persist with their immutable columns: whatever events run
    (webhooks, lookups, settlement tasks with or without failure, time
    passing), a stored row stays at its place in the table, and its
    internal id, transaction_id, source account, destination account,
    amount, currency and created_at are never changed; the table never
    gets shorter. *)
Theorem rows_persist evs w i r :
  table w !! i = Some r →
  (∃ r', table (run evs w) !! i = Some r'
         ∧ Transaction.id r' = Transaction.id r
         ∧ Transaction.transaction_id r' = Transaction.transaction_id r
         ∧ Transaction.source_account r' = Transaction.source_account r
         ∧ Transaction.destination_account r' = Transaction.destination_account r
         ∧ Transaction.amount r' = Transaction.amount r
         ∧ Transaction.currency r' = Transaction.currency r
         ∧ Transaction.created_at r' = Transaction.created_at r)
  ∧ (length (table w) ≤ length (table (run evs w)))%nat.
Proof.
  intros Hi. split.
  - destruct (run_keeps evs w i r Hi) as [r' [Hi' Hev]].
    exists r'. destruct Hev as (?&?&?&?&?&?&?&_). repeat split; assumption.
  - destruct (decide (length (table w) ≤ length (table (run evs w)))%nat)
      as [Hle|Hgt]; [exact Hle|].
    exfalso.
    assert (Hlt : (length (table (run evs w)) < length (table w))%nat) by lia.
    apply lookup_lt_is_Some_2 in Hlt as [r0 Hr0].
    destruct (run_keeps evs w _ r0 Hr0) as [r1 [Hr1 _]].
    apply lookup_lt_Some in Hr1. lia.
Qed.

Lemma rows_persist_witness :
  let w := run [PostWebhook None payload_tx1] (init utc_platform 1000) in
  let evs := [RunBackground 0 None; PostWebhook None payload_tx1'] in
  let r := Transaction.mk 0%N "tx-1" "A" "B" (Fixed2 1000) "USD" "PROCESSING"
             1000 None in
  (∃ r', table (run evs w) !! 0%nat = Some r'
         ∧ Transaction.id r' = Transaction.id r
         ∧ Transaction.transaction_id r' = Transaction.transaction_id r
         ∧ Transaction.source_account r' = Transaction.source_account r
         ∧ Transaction.destination_account r' = Transaction.destination_account r
         ∧ Transaction.amount r' = Transaction.amount r
         ∧ Transaction.currency r' = Transaction.currency r
         ∧ Transaction.created_at r' = Transaction.created_at r)
  ∧ (length (table w) ≤ length (table (run evs w)))%nat.
Proof.
  apply (rows_persist [RunBackground 0 None; PostWebhook None payload_tx1']
           (run [PostWebhook None payload_tx1] (init utc_platform 1000)) 0).
  reflexivity.
Defined.
